(** * gow: the runtime coordination engine of [gow_main.go]

    A shallow embedding of type [Main] and its methods: initialisation and
    teardown, the signal relay, the restart filter and the arbitration loop.

    Method bodies are Go statements run for their effects.  Each one becomes a
    computation in a small monad [M] that threads the program state, reports
    how the statement ended (normal return, panic, blocked forever on a
    channel, process exit) and emits the trace of the externally visible
    operations it performed, in program order. *)

From Stdlib Require Import ZArith List String Bool Lia.
Import ListNotations.
Local Open Scope Z_scope.

(** ** Base types *)

(** [time.Time] read on the monotonic clock, in nanoseconds. *)
Definition Time := Z.
(** [time.Duration], a count of nanoseconds. *)
Definition Duration := Z.
Definition Path := string.
(** A non-nil [error] value. *)
Definition Err := string.

Module syscall.
(** [syscall.Signal] is an integer signal number. *)
Definition Signal := Z.
Definition SIGHUP : Signal := 1.
Definition SIGINT : Signal := 2.
Definition SIGQUIT : Signal := 3.
Definition SIGKILL : Signal := 9.
Definition SIGUSR1 : Signal := 10.
Definition SIGTERM : Signal := 15.
End syscall.

(** [os.Signal] is an interface; on Unix its only dynamic type is
    [syscall.Signal], so the assertion [val.(syscall.Signal)] of [SigRun]
    always succeeds. *)
Inductive os_Signal : Type :=
| OsSignal (sig : syscall.Signal).

Definition assert_syscall_Signal (val : os_Signal) : syscall.Signal :=
  match val with OsSignal sig => sig end.

(** [FsEvent] is an interface with one method [Path()]; [None] is the nil
    interface value. *)
Definition FsEvent := option Path.

(** ** The fields of [Main] *)

(** The parsed options, as far as [gow_main.go] reads them. *)
Record Opt : Type := mkOpt {
  Verb : bool;
  Lazy : bool;
  Postpone : bool;
  Debounce : Duration;
  AllowPath : Path -> bool
}.

(** Modelled from the spec: the state of the Process Handle (type [Cmd], not
    in [gow_main.go]), one of NotStarted, Running, Exited. *)
Inductive ProcState : Type := NotStarted | Running | Exited.

(** Modelled from the spec: the Process Handle.  [Cmd_held] says whether the
    handle has been acquired by [Cmd.Init] and not yet released. *)
Record Cmd : Type := mkCmd {
  Cmd_held : bool;
  Cmd_proc : ProcState
}.

Record Main : Type := mkMain {
  Main_Opt : Opt;
  Main_Cmd : Cmd;
  (** Modelled from the spec: the I/O relay is a resource that is either
      running or absent. *)
  Main_Stdio : bool;
  (** [Watcher] is an interface value: nil or a [*WatchNotify]. *)
  Main_Watcher : option unit;
  (** Modelled from the spec: the saved terminal state, present or absent. *)
  Main_TermState : bool;
  (** [ChanSignals] is nil until [SigInit] makes the channel. *)
  Main_ChanSignals : option unit;
  lastRestart : Time
}.

(** The program state: the [Main] value, the clock read by [time.Now], and
    the signals package [os/signal] currently relays to [ChanSignals]. *)
Record World : Type := mkWorld {
  self : Main;
  clock : Time;
  relayed : list os_Signal
}.

(** ** Visible operations *)

Inductive LogMsg : Type :=
| LogKillSignal (sig : syscall.Signal)
| LogUnknownSignal (sig : syscall.Signal)
| LogFsRestart (event : FsEvent)
| LogError (e : Err).

Inductive Task : Type := TaskStdio | TaskSig | TaskWatch.

(** The steps of [Main.Init] that call into the other files. *)
Inductive InitStep : Type :=
| StepOpt | StepCmd | StepWatch | StepTermState | StepStdio.

Inductive Event : Type :=
| EvInit (step : InitStep)
| EvStdioDeinit
| EvTermRestore
| EvWatchDeinit
| EvSignalNotify (sigs : list os_Signal)
| EvSignalStop
| EvCmdDeinit
| EvCmdRestart
| EvCmdBroadcast (sig : syscall.Signal)
| EvTermInter
| EvSetLastRestart (t : Time)
| EvSendRestart
| EvSendKill (sig : syscall.Signal)
| EvSelfKill (sig : syscall.Signal)
| EvLog (msg : LogMsg)
| EvGo (task : Task)
| EvExit (code : Z).

(** ** The monad *)

Inductive Res (A : Type) : Type :=
| Ret (a : A)
| Panic (e : Err)
| Block
| Halt (code : Z).
Arguments Ret {A} a.
Arguments Panic {A} e.
Arguments Block {A}.
Arguments Halt {A} code.

Record Out (A : Type) : Type := mkOut {
  res : Res A;
  post : World;
  trace : list Event
}.
Arguments mkOut {A} res post trace.
Arguments res {A} o.
Arguments post {A} o.
Arguments trace {A} o.

Definition M (A : Type) : Type := World -> Out A.

Definition ret {A : Type} (a : A) : M A :=
  fun w => mkOut (Ret a) w [].

Definition bind {A B : Type} (m : M A) (f : A -> M B) : M B :=
  fun w =>
    let o := m w in
    match res o with
    | Ret a =>
        let o' := f a (post o) in
        mkOut (res o') (post o') (trace o ++ trace o')
    | Panic e => mkOut (Panic e) (post o) (trace o)
    | Block => mkOut Block (post o) (trace o)
    | Halt c => mkOut (Halt c) (post o) (trace o)
    end.

Declare Scope gow_scope.
Delimit Scope gow_scope with gow.
Notation "x <- m ;; k" := (bind m (fun x => k))
  (at level 61, m at next level, right associativity) : gow_scope.
Notation "m ;; k" := (bind m (fun _ => k))
  (at level 61, right associativity) : gow_scope.
Local Open Scope gow_scope.

Definition emit (e : Event) : M unit :=
  fun w => mkOut (Ret tt) w [e].

Definition gets {A : Type} (f : World -> A) : M A :=
  fun w => mkOut (Ret (f w)) w [].

Definition modify (f : World -> World) : M unit :=
  fun w => mkOut (Ret tt) (f w) [].

Definition panic {A : Type} (e : Err) : M A :=
  fun w => mkOut (Panic e) w [].

Definition block {A : Type} : M A :=
  fun w => mkOut Block w [].

(** [if c { body }] *)
Definition when (c : bool) (body : M unit) : M unit :=
  if c then body else ret tt.

(** ** Field updates *)

Definition with_self (f : Main -> Main) (w : World) : World :=
  mkWorld (f (self w)) (clock w) (relayed w).

Definition set_Opt (o : Opt) (m : Main) : Main :=
  mkMain o (Main_Cmd m) (Main_Stdio m) (Main_Watcher m) (Main_TermState m)
    (Main_ChanSignals m) (lastRestart m).

Definition set_Cmd (c : Cmd) (m : Main) : Main :=
  mkMain (Main_Opt m) c (Main_Stdio m) (Main_Watcher m) (Main_TermState m)
    (Main_ChanSignals m) (lastRestart m).

Definition set_Stdio (b : bool) (m : Main) : Main :=
  mkMain (Main_Opt m) (Main_Cmd m) b (Main_Watcher m) (Main_TermState m)
    (Main_ChanSignals m) (lastRestart m).

Definition set_Watcher (x : option unit) (m : Main) : Main :=
  mkMain (Main_Opt m) (Main_Cmd m) (Main_Stdio m) x (Main_TermState m)
    (Main_ChanSignals m) (lastRestart m).

Definition set_TermState (b : bool) (m : Main) : Main :=
  mkMain (Main_Opt m) (Main_Cmd m) (Main_Stdio m) (Main_Watcher m) b
    (Main_ChanSignals m) (lastRestart m).

Definition set_ChanSignals (x : option unit) (m : Main) : Main :=
  mkMain (Main_Opt m) (Main_Cmd m) (Main_Stdio m) (Main_Watcher m)
    (Main_TermState m) x (lastRestart m).

Definition set_lastRestart (t : Time) (m : Main) : Main :=
  mkMain (Main_Opt m) (Main_Cmd m) (Main_Stdio m) (Main_Watcher m)
    (Main_TermState m) (Main_ChanSignals m) t.

Definition set_relayed (l : list os_Signal) (w : World) : World :=
  mkWorld (self w) (clock w) l.

Definition set_clock (t : Time) (w : World) : World :=
  mkWorld (self w) t (relayed w).

(** ** The restart filter *)

(** Modelled from the spec: [Debounce.Allow] is not in [gow_main.go]; the
    spec admits an event when the time elapsed since the last recorded
    restart is at least the debounce duration. *)
Definition Debounce_Allow (d : Duration) (last now : Time) : bool :=
  d <=? now - last.

(** Modelled from the spec: [Cmd.IsRunning] reports whether the child is
    running. *)
Definition Cmd_IsRunning (c : Cmd) : bool :=
  match Cmd_proc c with Running => true | _ => false end.

(** [Main.ShouldRestart]; [&&] is lazy in Go, so [event.Path()] is only
    reached on a non-nil event. *)
Definition ShouldRestart (event : FsEvent) (w : World) : bool :=
  match event with
  | None => false
  | Some path =>
      negb (Lazy (Main_Opt (self w)) && Cmd_IsRunning (Main_Cmd (self w)))
      && AllowPath (Main_Opt (self w)) path
      && Debounce_Allow (Debounce (Main_Opt (self w))) (lastRestart (self w))
           (clock w)
  end.

(** [Main.Restart]: a send on [ChanRestart] that does not block. *)
Definition Restart : M unit := emit EvSendRestart.

(** [Main.Kill]: a send on [ChanKill] that does not block. *)
Definition Kill (val : syscall.Signal) : M unit := emit (EvSendKill val).

(** [Main.OnFsEvent] *)
Definition OnFsEvent (event : FsEvent) : M unit :=
  ok <- gets (ShouldRestart event) ;;
  if negb ok then ret tt
  else
    verb <- gets (fun w => Verb (Main_Opt (self w))) ;;
    when verb (emit (EvLog (LogFsRestart event))) ;; Restart.

(** ** Signal relay *)

(** Modelled from the spec: the table [KILL_SIGS] is not in [gow_main.go];
    the spec names the kill signals: interrupt, terminate, hangup, quit. *)
Definition KILL_SIGS : list syscall.Signal :=
  [syscall.SIGINT; syscall.SIGTERM; syscall.SIGHUP; syscall.SIGQUIT].

(** Modelled from the spec: the table [KILL_SIGS_OS] is not in
    [gow_main.go]; it is the fixed set of termination signals registered at
    startup: interrupt, terminate, hangup, quit, as [os.Signal] values. *)
Definition KILL_SIGS_OS : list os_Signal :=
  [OsSignal syscall.SIGINT; OsSignal syscall.SIGTERM;
   OsSignal syscall.SIGHUP; OsSignal syscall.SIGQUIT].

(** [gg.Has]: membership in a slice, by [==]. *)
Definition Has (l : list syscall.Signal) (sig : syscall.Signal) : bool :=
  existsb (Z.eqb sig) l.

(** [Main.SigInit]: make the channel, then [signal.Notify], which adds the
    given signals to those relayed to the channel. *)
Definition SigInit : M unit :=
  modify (with_self (set_ChanSignals (Some tt))) ;;
  emit (EvSignalNotify KILL_SIGS_OS) ;;
  modify (fun w => set_relayed (relayed w ++ KILL_SIGS_OS) w).

(** [Main.SigDeinit]: [signal.Stop] ends all relaying to the channel.  The
    field [ChanSignals] is left as it is. *)
Definition SigDeinit : M unit :=
  ch <- gets (fun w => Main_ChanSignals (self w)) ;;
  when (match ch with Some _ => true | None => false end)
    (emit EvSignalStop ;; modify (set_relayed [])).

(** One iteration of the [for ... range] of [Main.SigRun]. *)
Definition SigRun_body (val : os_Signal) : M unit :=
  let sig := assert_syscall_Signal val in
  if Has KILL_SIGS sig then
    verb <- gets (fun w => Verb (Main_Opt (self w))) ;;
    when verb (emit (EvLog (LogKillSignal sig))) ;;
    Kill sig
  else
    verb <- gets (fun w => Verb (Main_Opt (self w))) ;;
    when verb (emit (EvLog (LogUnknownSignal sig))).

(** [Main.SigRun] over the signals the channel delivers; the channel is
    never closed, so the task then waits forever. *)
Fixpoint SigRun (delivered : list os_Signal) : M unit :=
  match delivered with
  | [] => block
  | val :: rest => SigRun_body val ;; SigRun rest
  end.

(** ** Initialisation and teardown *)

(** What the environment decides for one run: the options the command line
    parses to, and which setup steps fail.  Modelled from the spec: setup
    errors (bad configuration, failed watch-backend init, ...) are fatal;
    in Go they are panics. *)
Record Env : Type := mkEnv {
  parsed : Opt;
  fault : InitStep -> option Err
}.

Definition attempt (env : Env) (step : InitStep) : M unit :=
  emit (EvInit step) ;;
  match fault env step with
  | Some e => panic e
  | None => ret tt
  end.

Definition Opt_Init (env : Env) : M unit :=
  attempt env StepOpt ;;
  modify (with_self (set_Opt (parsed env))).

Definition Cmd_Init (env : Env) : M unit :=
  attempt env StepCmd ;;
  modify (with_self (fun m => set_Cmd (mkCmd true (Cmd_proc (Main_Cmd m))) m)).

(** [Main.WatchInit]: the field is assigned after [wat.Init] returned. *)
Definition WatchInit (env : Env) : M unit :=
  attempt env StepWatch ;;
  modify (with_self (set_Watcher (Some tt))).

Definition TermState_Init (env : Env) : M unit :=
  attempt env StepTermState ;;
  modify (with_self (set_TermState true)).

Definition Stdio_Init (env : Env) : M unit :=
  attempt env StepStdio ;;
  modify (with_self (set_Stdio true)).

(** [self.lastRestart = time.Now()].  The field is read by [ShouldRestart]
    on the watcher task, so the store is a visible operation. *)
Definition store_lastRestart_now : M unit :=
  now <- gets clock ;;
  modify (with_self (set_lastRestart now)) ;;
  emit (EvSetLastRestart now).

(** [Main.Init]; making [ChanRestart] and [ChanKill] has no visible
    effect. *)
Definition Init (env : Env) : M unit :=
  Opt_Init env ;;
  Cmd_Init env ;;
  SigInit ;;
  WatchInit env ;;
  TermState_Init env ;;
  Stdio_Init env ;;
  store_lastRestart_now.

(** Modelled from the spec: stop the I/O relay, skipped when it was never
    started. *)
Definition Stdio_Deinit : M unit :=
  held <- gets (fun w => Main_Stdio (self w)) ;;
  when held (emit EvStdioDeinit ;; modify (with_self (set_Stdio false))).

(** Modelled from the spec: restore the terminal state, skipped when none
    was saved. *)
Definition TermState_Deinit : M unit :=
  held <- gets (fun w => Main_TermState (self w)) ;;
  when held (emit EvTermRestore ;; modify (with_self (set_TermState false))).

(** [Main.WatchDeinit] *)
Definition WatchDeinit : M unit :=
  wat <- gets (fun w => Main_Watcher (self w)) ;;
  when (match wat with Some _ => true | None => false end)
    (emit EvWatchDeinit ;; modify (with_self (set_Watcher None))).

(** Modelled from the spec: release the Process Handle, skipped when it was
    never acquired; a running child is gone afterwards. *)
Definition Cmd_Deinit : M unit :=
  c <- gets (fun w => Main_Cmd (self w)) ;;
  when (Cmd_held c)
    (emit EvCmdDeinit ;;
     modify (with_self (set_Cmd (mkCmd false
       (match Cmd_proc c with Running => Exited | p => p end))))).

(** [Main.Deinit] *)
Definition Deinit : M unit :=
  Stdio_Deinit ;;
  TermState_Deinit ;;
  WatchDeinit ;;
  SigDeinit ;;
  Cmd_Deinit.

(** ** The arbitration loop *)

(** Modelled from the spec: [Cmd.Restart] starts a fresh child, which
    supersedes the previous one. *)
Definition Cmd_Restart : M unit :=
  emit EvCmdRestart ;;
  modify (with_self (fun m =>
    set_Cmd (mkCmd (Cmd_held (Main_Cmd m)) Running) m)).

(** Modelled from the spec: [Cmd.Broadcast] sends the signal to the child
    and its descendants. *)
Definition Cmd_Broadcast (sig : syscall.Signal) : M unit :=
  emit (EvCmdBroadcast sig).

(** Modelled from the spec: [Opt.TermInter], the courtesy notification for
    the instance about to be replaced. *)
Definition Opt_TermInter : M unit := emit EvTermInter.

(** [Main.Terminate] *)
Definition Terminate (sig : syscall.Signal) : M unit :=
  Cmd_Broadcast sig ;;
  Deinit ;;
  emit (EvSelfKill sig).

(** What one [select] of [Main.CmdRun] receives. *)
Inductive Msg : Type :=
| MsgRestart
| MsgKill (sig : syscall.Signal).

(** The [for { select { ... } }] of [Main.CmdRun], run on the values the
    two channels hand over, each with the clock reading at its receipt, in
    the order the [select]s take them.  When nothing more arrives the loop
    is blocked in [select]. *)
Fixpoint CmdRun_loop (inbox : list (Time * Msg)) : M unit :=
  match inbox with
  | [] => block
  | (t, MsgRestart) :: rest =>
      modify (set_clock t) ;;
      store_lastRestart_now ;;
      Opt_TermInter ;;
      Cmd_Restart ;;
      CmdRun_loop rest
  | (t, MsgKill sig) :: _ =>
      modify (set_clock t) ;;
      Terminate sig
  end.

(** [Main.CmdRun] *)
Definition CmdRun (inbox : list (Time * Msg)) : M unit :=
  postpone <- gets (fun w => Postpone (Main_Opt (self w))) ;;
  when (negb postpone) Cmd_Restart ;;
  CmdRun_loop inbox.

(** [Main.Run]; the three [go] statements start the background tasks. *)
Definition Run (inbox : list (Time * Msg)) : M unit :=
  emit (EvGo TaskStdio) ;;
  emit (EvGo TaskSig) ;;
  emit (EvGo TaskWatch) ;;
  CmdRun inbox.

(** ** Exit *)

(** [os.Exit] ends the process at once. *)
Definition os_Exit (code : Z) : M unit :=
  fun w => mkOut (Halt code) w [EvExit code].

(** Modelled from the spec: [Opt.LogErr] writes the error to standard
    error through the [[gow]] logger. *)
Definition Opt_LogErr (e : Err) : M unit := emit (EvLog (LogError e)).

(** [Main.Exit]; [recovered] is what [recover()] returns: the panic in
    flight, if any. *)
Definition Exit (recovered : option Err) : M unit :=
  match recovered with
  | Some err => Opt_LogErr err ;; os_Exit 1
  | None => os_Exit 0
  end.

(** [defer d; body]: [d] runs when [body] returns or panics, and sees the
    panic in flight.  A deferred call that returns leaves that panic in
    flight; one that panics replaces it.  Nothing runs after [os.Exit], nor
    while [body] is blocked. *)
Definition defer (d : option Err -> M unit) (body : M unit) : M unit :=
  fun w =>
    let o := body w in
    match res o with
    | Ret _ =>
        let o' := d None (post o) in
        mkOut (res o') (post o') (trace o ++ trace o')
    | Panic e =>
        let o' := d (Some e) (post o) in
        mkOut (match res o' with Ret _ => Panic e | r => r end)
          (post o') (trace o ++ trace o')
    | Block => o
    | Halt _ => o
    end.

(** [func main()] *)
Definition main (env : Env) (inbox : list (Time * Msg)) : M unit :=
  defer Exit
    (defer (fun _ => Deinit)
       (Init env ;; Run inbox)).

(** The state of the program when it starts. *)
Definition zero_Opt : Opt := mkOpt false false false 0 (fun _ => false).

Definition zero_Main : Main :=
  mkMain zero_Opt (mkCmd false NotStarted) false None false None 0.

Definition boot (t : Time) : World := mkWorld zero_Main t [].

(** ** Reading traces and inboxes *)

Definition is_CmdRestart (e : Event) : bool :=
  match e with EvCmdRestart => true | _ => false end.

(** How many times a trace starts the child. *)
Definition restarts (tr : list Event) : nat :=
  List.length (filter is_CmdRestart tr).

Definition is_MsgRestart (m : Time * Msg) : bool :=
  match snd m with MsgRestart => true | MsgKill _ => false end.

(** The restart requests that come before the first kill request. *)
Fixpoint restarts_due (inbox : list (Time * Msg)) : nat :=
  match inbox with
  | [] => 0%nat
  | (_, MsgRestart) :: rest => S (restarts_due rest)
  | (_, MsgKill _) :: _ => 0%nat
  end.

(** The state the restart branch of the loop leaves, before the next
    [select]. *)
Definition restarted (t : Time) (w : World) : World :=
  mkWorld
    (set_Cmd (mkCmd (Cmd_held (Main_Cmd (self w))) Running)
       (set_lastRestart t (self w)))
    t (relayed w).

(** The state the bootstrap restart leaves. *)
Definition bootstrapped (w : World) : World :=
  if Postpone (Main_Opt (self w)) then w
  else with_self (fun m =>
         set_Cmd (mkCmd (Cmd_held (Main_Cmd m)) Running) m) w.

(** The error of the first setup step that fails, in the order of
    [Main.Init]. *)
Definition first_fault (env : Env) : option Err :=
  match fault env StepOpt with
  | Some e => Some e
  | None =>
  match fault env StepCmd with
  | Some e => Some e
  | None =>
  match fault env StepWatch with
  | Some e => Some e
  | None =>
  match fault env StepTermState with
  | Some e => Some e
  | None => fault env StepStdio
  end end end end.

(** ** The watcher task *)

(** [Main.WatchRun]; [Watcher.Run] is a method of another file and is taken
    as it comes. *)
Definition WatchRun (Watcher_Run : M unit) : M unit :=
  wat <- gets (fun w => Main_Watcher (self w)) ;;
  when (match wat with Some _ => true | None => false end) Watcher_Run.

(** ** Resources and their release *)

(** The resources [Deinit] gives up with a call of their own. *)
Inductive Resource : Type := ResStdio | ResTermState | ResWatcher | ResCmd.

Definition releases (r : Resource) (e : Event) : bool :=
  match r, e with
  | ResStdio, EvStdioDeinit => true
  | ResTermState, EvTermRestore => true
  | ResWatcher, EvWatchDeinit => true
  | ResCmd, EvCmdDeinit => true
  | _, _ => false
  end.

Definition held (r : Resource) (w : World) : bool :=
  match r with
  | ResStdio => Main_Stdio (self w)
  | ResTermState => Main_TermState (self w)
  | ResWatcher =>
      match Main_Watcher (self w) with Some _ => true | None => false end
  | ResCmd => Cmd_held (Main_Cmd (self w))
  end.

(** How many times a trace releases a resource. *)
Definition released_times (r : Resource) (tr : list Event) : nat :=
  List.length (filter (releases r) tr).

(** The signals a trace sends on the kill channel, in order. *)
Fixpoint kill_sends (tr : list Event) : list syscall.Signal :=
  match tr with
  | [] => []
  | EvSendKill sig :: rest => sig :: kill_sends rest
  | _ :: rest => kill_sends rest
  end.

(** The time of the last restart request ahead of the first kill request,
    or [t0] when there is none. *)
Fixpoint baseline (inbox : list (Time * Msg)) (t0 : Time) : Time :=
  match inbox with
  | [] => t0
  | (t, MsgRestart) :: rest => baseline rest t
  | (_, MsgKill _) :: _ => t0
  end.

(** Nothing is held and nothing is relayed any longer. *)
Definition all_released (w : World) : Prop :=
  (forall r : Resource, held r w = false) /\ relayed w = [].

(** Signals are relayed only to a channel that exists. *)
Definition relay_has_channel (w : World) : Prop :=
  Main_ChanSignals (self w) = None -> relayed w = [].

(** ** Sample runs *)

Definition sample_Opt : Opt :=
  mkOpt true false false 100 (fun path => String.eqb path "main.go").

Definition sample_Env : Env := mkEnv sample_Opt (fun _ => None).

(** A run whose watch backend fails to start. *)
Definition broken_Env : Env :=
  mkEnv sample_Opt
    (fun step =>
       match step with StepWatch => Some "watch"%string | _ => None end).

(** The state after a successful [Init] at time 1000. *)
Definition sample_World : World := post (Init sample_Env (boot 1000)).

(** * Properties *)

(** ** General facts about the monad *)

Lemma bind_emit {B : Type} (e : Event) (k : M B) (w : World) :
  res ((emit e ;; k) w) = res (k w) /\
  post ((emit e ;; k) w) = post (k w) /\
  trace ((emit e ;; k) w) = e :: trace (k w).
Proof. unfold bind, emit; simpl. destruct (res (k w)); auto. Qed.

(** ** The restart filter *)

Lemma Debounce_Allow_spec (d : Duration) (last now : Time) :
  Debounce_Allow d last now = true <-> d <= now - last.
Proof. unfold Debounce_Allow. apply Z.leb_le. Qed.

(** C1.  [ShouldRestart] admits a change event exactly when the event is
    non-nil, lazy mode is off or the child is not running, the allow
    predicate holds of the event's path, and the time elapsed since the last
    recorded restart is at least the debounce duration.  [OnFsEvent] sends
    on the restart channel for an admitted event, after the verbose log
    line, and does nothing at all for any other event. *)
Theorem ShouldRestart_admits_iff (event : FsEvent) (w : World) :
  (ShouldRestart event w = true <->
     exists path,
       event = Some path /\
       (Lazy (Main_Opt (self w)) = false \/
        Cmd_IsRunning (Main_Cmd (self w)) = false) /\
       AllowPath (Main_Opt (self w)) path = true /\
       Debounce (Main_Opt (self w)) <= clock w - lastRestart (self w)) /\
  OnFsEvent event w =
    (if ShouldRestart event w
     then mkOut (Ret tt) w
            ((if Verb (Main_Opt (self w))
              then [EvLog (LogFsRestart event)] else []) ++ [EvSendRestart])
     else mkOut (Ret tt) w []).
Proof.
  split.
  - destruct event as [path|]; simpl.
    + rewrite !andb_true_iff, negb_true_iff, andb_false_iff,
        Debounce_Allow_spec.
      split.
      * intros [[Hlazy Hallow] Hdeb]. exists path. auto.
      * intros (p & Hp & Hlazy & Hallow & Hdeb).
        injection Hp as <-. auto.
    + split; [discriminate|]. intros (p & Hp & _). discriminate.
  - unfold OnFsEvent, bind, gets; simpl.
    destruct (ShouldRestart event w); simpl; [|reflexivity].
    destruct (Verb (Main_Opt (self w))); reflexivity.
Qed.

(** ** Teardown *)

Lemma Deinit_run (w : World) :
  res (Deinit w) = Ret tt /\
  trace (Deinit w) =
    (if Main_Stdio (self w) then [EvStdioDeinit] else []) ++
    (if Main_TermState (self w) then [EvTermRestore] else []) ++
    (match Main_Watcher (self w) with
     | Some _ => [EvWatchDeinit] | None => [] end) ++
    (match Main_ChanSignals (self w) with
     | Some _ => [EvSignalStop] | None => [] end) ++
    (if Cmd_held (Main_Cmd (self w)) then [EvCmdDeinit] else []) /\
  post (Deinit w) =
    mkWorld
      (mkMain (Main_Opt (self w))
         (if Cmd_held (Main_Cmd (self w))
          then mkCmd false
                 (match Cmd_proc (Main_Cmd (self w)) with
                  | Running => Exited | p => p end)
          else Main_Cmd (self w))
         false None false (Main_ChanSignals (self w))
         (lastRestart (self w)))
      (clock w)
      (match Main_ChanSignals (self w) with
       | Some _ => [] | None => relayed w end).
Proof.
  destruct w as [[o [held proc] stdio wat term ch last] clk rel].
  destruct stdio, term, wat, ch, held; repeat split.
Qed.

Lemma restarts_app (a b : list Event) :
  restarts (a ++ b) = (restarts a + restarts b)%nat.
Proof. unfold restarts. now rewrite filter_app, length_app. Qed.

Lemma Deinit_no_restart (w : World) : restarts (trace (Deinit w)) = 0%nat.
Proof.
  destruct (Deinit_run w) as (_ & -> & _).
  destruct (Main_Stdio (self w)), (Main_TermState (self w)),
    (Main_Watcher (self w)), (Main_ChanSignals (self w)),
    (Cmd_held (Main_Cmd (self w))); reflexivity.
Qed.

Lemma Terminate_run (sig : syscall.Signal) (w : World) :
  res (Terminate sig w) = Ret tt /\
  trace (Terminate sig w) =
    [EvCmdBroadcast sig] ++ trace (Deinit w) ++ [EvSelfKill sig] /\
  post (Terminate sig w) = post (Deinit w).
Proof.
  destruct (Deinit_run w) as (Hres & _ & _).
  unfold Terminate, Cmd_Broadcast, bind, emit; simpl.
  rewrite Hres; simpl. auto.
Qed.

(** C6.  [Deinit] never fails and releases what is held in the order:
    I/O relay, terminal state, filesystem watch, signal subscription,
    Process Handle, passing over each resource that is absent.  [Deinit] is
    idempotent: after the first call nothing is held, and a second call,
    from any state and so also after an [Init] that failed half way,
    returns normally, leaves the state exactly as the first call left it
    and releases nothing.  The one operation it can repeat is
    [signal.Stop], since [ChanSignals] stays non-nil; it then finds
    nothing relayed to the channel and changes nothing. *)
Theorem Deinit_order_and_second_call (w : World) :
  res (Deinit w) = Ret tt /\
  trace (Deinit w) =
    (if Main_Stdio (self w) then [EvStdioDeinit] else []) ++
    (if Main_TermState (self w) then [EvTermRestore] else []) ++
    (match Main_Watcher (self w) with
     | Some _ => [EvWatchDeinit] | None => [] end) ++
    (match Main_ChanSignals (self w) with
     | Some _ => [EvSignalStop] | None => [] end) ++
    (if Cmd_held (Main_Cmd (self w)) then [EvCmdDeinit] else []) /\
  res (Deinit (post (Deinit w))) = Ret tt /\
  post (Deinit (post (Deinit w))) = post (Deinit w) /\
  trace (Deinit (post (Deinit w))) =
    (match Main_ChanSignals (self w) with
     | Some _ => [EvSignalStop] | None => [] end) /\
  (forall r : Resource, held r (post (Deinit w)) = false) /\
  (forall r : Resource,
     released_times r (trace (Deinit (post (Deinit w)))) = 0%nat) /\
  (match Main_ChanSignals (self w) with
   | Some _ => relayed (post (Deinit w)) = []
   | None => relayed (post (Deinit w)) = relayed w
   end).
Proof.
  destruct (Deinit_run w) as (Hres & Htrace & Hpost).
  destruct (Deinit_run (post (Deinit w))) as (Hres2 & Htrace2 & Hpost2).
  assert (Hsecond : trace (Deinit (post (Deinit w))) =
            match Main_ChanSignals (self w) with
            | Some _ => [EvSignalStop] | None => [] end).
  { rewrite Htrace2, Hpost; simpl.
    destruct (Main_ChanSignals (self w)),
      (Cmd_held (Main_Cmd (self w))) eqn:Hheld; simpl;
      rewrite ?Hheld; reflexivity. }
  repeat split; try assumption.
  - rewrite Hpost2, Hpost; simpl.
    destruct (Main_ChanSignals (self w)),
      (Cmd_held (Main_Cmd (self w))) eqn:Hheld; simpl;
      rewrite ?Hheld; reflexivity.
  - intros r. rewrite Hpost.
    destruct r; simpl; try reflexivity.
    destruct (Cmd_held (Main_Cmd (self w))) eqn:Hheld; simpl;
      rewrite ?Hheld; reflexivity.
  - intros r. rewrite Hsecond.
    destruct r, (Main_ChanSignals (self w)); reflexivity.
  - rewrite Hpost; simpl.
    destruct (Main_ChanSignals (self w)); reflexivity.
Qed.

(** ** Termination sequence *)

(** C2.  With the signal subscription in place, [Terminate] performs, in
    this order: the broadcast of the received signal to the child and its
    descendants, the whole of [Deinit], and the re-raise of the same signal
    against the process itself.  The signal is broadcast as it is, and no
    other one is.  [signal.Stop] is among the steps of [Deinit], hence
    before the re-raise, and nothing is relayed to the program's channel
    when the signal is re-raised. *)
Theorem Terminate_sequence (sig : syscall.Signal) (w : World)
  (Hsub : Main_ChanSignals (self w) = Some tt) :
  res (Terminate sig w) = Ret tt /\
  trace (Terminate sig w) =
    [EvCmdBroadcast sig] ++ trace (Deinit w) ++ [EvSelfKill sig] /\
  trace (Deinit w) =
    (if Main_Stdio (self w) then [EvStdioDeinit] else []) ++
    (if Main_TermState (self w) then [EvTermRestore] else []) ++
    (match Main_Watcher (self w) with
     | Some _ => [EvWatchDeinit] | None => [] end) ++
    [EvSignalStop] ++
    (if Cmd_held (Main_Cmd (self w)) then [EvCmdDeinit] else []) /\
  relayed (post (Terminate sig w)) = [] /\
  (forall s, In (EvCmdBroadcast s) (trace (Terminate sig w)) -> s = sig).
Proof.
  destruct (Terminate_run sig w) as (Hres & Htrace & Hpost).
  destruct (Deinit_run w) as (_ & Hd & Hp).
  rewrite Hsub in Hd, Hp.
  repeat split; try assumption.
  - rewrite Hpost, Hp. reflexivity.
  - intros s. rewrite Htrace, Hd.
    destruct (Main_Stdio (self w)), (Main_TermState (self w)),
      (Main_Watcher (self w)), (Cmd_held (Main_Cmd (self w)));
      simpl; intros Hin;
      repeat (destruct Hin as [Hin|Hin];
              [try discriminate Hin; injection Hin; auto|]);
      contradiction.
Qed.

Lemma Terminate_sequence_witness :
  Main_ChanSignals (self sample_World) = Some tt /\
  trace (Terminate syscall.SIGINT sample_World) =
    [EvCmdBroadcast syscall.SIGINT; EvStdioDeinit; EvTermRestore;
     EvWatchDeinit; EvSignalStop; EvCmdDeinit; EvSelfKill syscall.SIGINT].
Proof.
  split; [reflexivity|].
  rewrite (proj1 (proj2
    (Terminate_sequence syscall.SIGINT sample_World eq_refl))).
  reflexivity.
Defined.

(** ** The arbitration loop *)

Lemma Out_eta {A : Type} (o o' : Out A) :
  res o = res o' -> post o = post o' -> trace o = trace o' -> o = o'.
Proof. destruct o, o'; simpl; intros; subst; reflexivity. Qed.

Lemma CmdRun_loop_restart_step (t : Time) (rest : list (Time * Msg))
  (w : World) :
  res (CmdRun_loop ((t, MsgRestart) :: rest) w) =
    res (CmdRun_loop rest (restarted t w)) /\
  post (CmdRun_loop ((t, MsgRestart) :: rest) w) =
    post (CmdRun_loop rest (restarted t w)) /\
  trace (CmdRun_loop ((t, MsgRestart) :: rest) w) =
    [EvSetLastRestart t; EvTermInter; EvCmdRestart] ++
    trace (CmdRun_loop rest (restarted t w)).
Proof.
  cbn [CmdRun_loop].
  unfold bind, modify, store_lastRestart_now, Opt_TermInter, Cmd_Restart,
    gets, emit; simpl.
  repeat match goal with
  | |- context [CmdRun_loop rest ?w'] =>
      progress change w' with (restarted t w)
  end.
  destruct (res (CmdRun_loop rest (restarted t w))); simpl; auto.
Qed.

Lemma CmdRun_loop_kill_step (t : Time) (sig : syscall.Signal)
  (rest : list (Time * Msg)) (w : World) :
  res (CmdRun_loop ((t, MsgKill sig) :: rest) w) = Ret tt /\
  post (CmdRun_loop ((t, MsgKill sig) :: rest) w) =
    post (Terminate sig (set_clock t w)) /\
  trace (CmdRun_loop ((t, MsgKill sig) :: rest) w) =
    trace (Terminate sig (set_clock t w)).
Proof.
  cbn [CmdRun_loop]. unfold bind at 1, modify; cbn [res post trace app].
  destruct (Terminate_run sig (set_clock t w)) as (Hres & _ & _).
  rewrite Hres. auto.
Qed.

Lemma CmdRun_loop_app (pre rest : list (Time * Msg)) (w : World) :
  forallb is_MsgRestart pre = true ->
  res (CmdRun_loop pre w) = Block /\
  res (CmdRun_loop (pre ++ rest) w) =
    res (CmdRun_loop rest (post (CmdRun_loop pre w))) /\
  post (CmdRun_loop (pre ++ rest) w) =
    post (CmdRun_loop rest (post (CmdRun_loop pre w))) /\
  trace (CmdRun_loop (pre ++ rest) w) =
    trace (CmdRun_loop pre w) ++
    trace (CmdRun_loop rest (post (CmdRun_loop pre w))).
Proof.
  revert w. induction pre as [|[t m] pre IH]; intros w Hpre.
  - simpl. auto.
  - simpl in Hpre. apply andb_true_iff in Hpre as [Hm Hpre].
    destruct m as [|sig]; [|discriminate Hm].
    destruct (CmdRun_loop_restart_step t pre w) as (R1 & P1 & T1).
    destruct (CmdRun_loop_restart_step t (pre ++ rest) w) as (R2 & P2 & T2).
    destruct (IH (restarted t w) Hpre) as (B & R & P & T).
    rewrite <- app_comm_cons, R1, R2, P1, P2, T1, T2, T, <- app_assoc.
    auto.
Qed.

Lemma CmdRun_prelude (inbox : list (Time * Msg)) (w : World) :
  res (CmdRun inbox w) = res (CmdRun_loop inbox (bootstrapped w)) /\
  post (CmdRun inbox w) = post (CmdRun_loop inbox (bootstrapped w)) /\
  trace (CmdRun inbox w) =
    (if Postpone (Main_Opt (self w)) then [] else [EvCmdRestart]) ++
    trace (CmdRun_loop inbox (bootstrapped w)).
Proof.
  unfold CmdRun, bootstrapped, bind at 1, gets; simpl.
  destruct (Postpone (Main_Opt (self w))); simpl.
  - unfold bind, ret; simpl. destruct (res (CmdRun_loop inbox w)); auto.
  - unfold bind, Cmd_Restart, emit, modify; simpl.
    match goal with
    | |- context [res (CmdRun_loop inbox ?w')] =>
        destruct (res (CmdRun_loop inbox w'))
    end; auto.
Qed.

Lemma CmdRun_loop_restarts (inbox : list (Time * Msg)) (w : World) :
  restarts (trace (CmdRun_loop inbox w)) = restarts_due inbox.
Proof.
  revert w. induction inbox as [|[t m] inbox IH]; intros w.
  - reflexivity.
  - destruct m as [|sig].
    + destruct (CmdRun_loop_restart_step t inbox w) as (_ & _ & ->).
      rewrite restarts_app, IH. reflexivity.
    + destruct (CmdRun_loop_kill_step t sig inbox w) as (_ & _ & ->).
      destruct (Terminate_run sig (set_clock t w)) as (_ & -> & _).
      rewrite !restarts_app, Deinit_no_restart. reflexivity.
Qed.

Lemma Terminate_no_restart (sig : syscall.Signal) (w : World) :
  restarts (trace (Terminate sig w)) = 0%nat.
Proof.
  destruct (Terminate_run sig w) as (_ & -> & _).
  rewrite !restarts_app, Deinit_no_restart. reflexivity.
Qed.

(** C4.  On a value from the restart channel the loop stores the current
    time in [lastRestart], then sends the terminal-interrupt notification,
    then restarts the child, and goes on to the next [select] with the new
    baseline in place and the child running. *)
Theorem CmdRun_restart_branch (t : Time) (rest : list (Time * Msg))
  (w : World) :
  trace (CmdRun_loop ((t, MsgRestart) :: rest) w) =
    [EvSetLastRestart t; EvTermInter; EvCmdRestart] ++
    trace (CmdRun_loop rest (restarted t w)) /\
  res (CmdRun_loop ((t, MsgRestart) :: rest) w) =
    res (CmdRun_loop rest (restarted t w)) /\
  post (CmdRun_loop ((t, MsgRestart) :: rest) w) =
    post (CmdRun_loop rest (restarted t w)) /\
  lastRestart (self (restarted t w)) = t /\
  clock (restarted t w) = t /\
  Cmd_IsRunning (Main_Cmd (self (restarted t w))) = true.
Proof.
  destruct (CmdRun_loop_restart_step t rest w) as (R & P & T).
  repeat split; assumption.
Qed.

(** C5.  Before the loop, [CmdRun] restarts the child exactly once when
    postpone is off and not at all when it is on; the rest of its trace is
    that of the loop.  So with no request received the trace is that one
    restart, or nothing, and over a whole run the child is started once
    for the bootstrap, if any, and once per restart request received. *)
Theorem CmdRun_bootstrap (inbox : list (Time * Msg)) (w : World) :
  trace (CmdRun inbox w) =
    (if Postpone (Main_Opt (self w)) then [] else [EvCmdRestart]) ++
    trace (CmdRun_loop inbox (bootstrapped w)) /\
  trace (CmdRun [] w) =
    (if Postpone (Main_Opt (self w)) then [] else [EvCmdRestart]) /\
  restarts (trace (CmdRun inbox w)) =
    ((if Postpone (Main_Opt (self w)) then 0 else 1) +
     restarts_due inbox)%nat.
Proof.
  destruct (CmdRun_prelude inbox w) as (_ & _ & T).
  destruct (CmdRun_prelude [] w) as (_ & _ & T0).
  repeat split.
  - exact T.
  - rewrite T0. simpl. apply app_nil_r.
  - rewrite T, restarts_app, CmdRun_loop_restarts.
    destruct (Postpone (Main_Opt (self w))); reflexivity.
Qed.

(** C3.  While only restart requests arrive, [CmdRun] does not return: it
    is blocked in [select].  When a kill request arrives it runs the
    termination sequence and returns.  What is still queued behind the kill
    request is never received: the run is the same as if nothing were
    queued, and the termination sequence, the last part of the trace,
    starts no child. *)
Theorem CmdRun_returns_on_kill (pre rest : list (Time * Msg)) (t : Time)
  (sig : syscall.Signal) (w : World)
  (Hpre : forallb is_MsgRestart pre = true) :
  res (CmdRun pre w) = Block /\
  res (CmdRun (pre ++ (t, MsgKill sig) :: rest) w) = Ret tt /\
  trace (CmdRun (pre ++ (t, MsgKill sig) :: rest) w) =
    trace (CmdRun pre w) ++
    trace (Terminate sig (set_clock t (post (CmdRun pre w)))) /\
  restarts (trace (Terminate sig (set_clock t (post (CmdRun pre w))))) =
    0%nat /\
  CmdRun (pre ++ (t, MsgKill sig) :: rest) w =
    CmdRun (pre ++ [(t, MsgKill sig)]) w.
Proof.
  destruct (CmdRun_prelude pre w) as (R0 & P0 & T0).
  assert (Hrun : forall q,
    res (CmdRun (pre ++ (t, MsgKill sig) :: q) w) = Ret tt /\
    post (CmdRun (pre ++ (t, MsgKill sig) :: q) w) =
      post (Terminate sig (set_clock t (post (CmdRun pre w)))) /\
    trace (CmdRun (pre ++ (t, MsgKill sig) :: q) w) =
      trace (CmdRun pre w) ++
      trace (Terminate sig (set_clock t (post (CmdRun pre w))))).
  { intros q.
    destruct (CmdRun_prelude (pre ++ (t, MsgKill sig) :: q) w)
      as (R1 & P1 & T1).
    destruct (CmdRun_loop_app pre ((t, MsgKill sig) :: q) (bootstrapped w)
                Hpre) as (_ & R2 & P2 & T2).
    destruct (CmdRun_loop_kill_step t sig q
                (post (CmdRun_loop pre (bootstrapped w))))
      as (R3 & P3 & T3).
    rewrite R1, P1, T1, R2, P2, T2, R3, P3, T3, P0, T0, app_assoc.
    auto. }
  destruct (Hrun rest) as (R & P & T).
  destruct (Hrun []) as (R' & P' & T').
  repeat split.
  - rewrite R0.
    destruct (CmdRun_loop_app pre [] (bootstrapped w) Hpre) as (B & _).
    exact B.
  - exact R.
  - exact T.
  - apply Terminate_no_restart.
  - apply Out_eta; congruence.
Qed.

Lemma CmdRun_returns_on_kill_witness :
  forallb is_MsgRestart [(1200, MsgRestart)] = true /\
  res (CmdRun [(1200, MsgRestart)] sample_World) = Block /\
  res (CmdRun [(1200, MsgRestart); (1300, MsgKill syscall.SIGTERM);
               (1400, MsgRestart)] sample_World) = Ret tt.
Proof.
  split; [reflexivity|].
  pose proof (CmdRun_returns_on_kill [(1200, MsgRestart)]
                [(1400, MsgRestart)] 1300 syscall.SIGTERM sample_World
                eq_refl) as H.
  split; [exact (proj1 H) | exact (proj1 (proj2 H))].
Defined.

(** ** Signal relay *)

Lemma Has_In (l : list syscall.Signal) (sig : syscall.Signal) :
  Has l sig = true <-> In sig l.
Proof.
  unfold Has. rewrite existsb_exists. split.
  - intros (x & Hin & Heq). apply Z.eqb_eq in Heq. now subst.
  - intros Hin. exists sig. split; [assumption | apply Z.eqb_refl].
Qed.

Lemma SigRun_body_run (val : os_Signal) (w : World) :
  SigRun_body val w =
    (if Has KILL_SIGS (assert_syscall_Signal val)
     then mkOut (Ret tt) w
            ((if Verb (Main_Opt (self w))
              then [EvLog (LogKillSignal (assert_syscall_Signal val))]
              else []) ++ [EvSendKill (assert_syscall_Signal val)])
     else mkOut (Ret tt) w
            (if Verb (Main_Opt (self w))
             then [EvLog (LogUnknownSignal (assert_syscall_Signal val))]
             else [])).
Proof.
  unfold SigRun_body.
  destruct (Has KILL_SIGS (assert_syscall_Signal val));
    unfold bind at 1, gets; cbn [res post trace];
    destruct (Verb (Main_Opt (self w))); reflexivity.
Qed.

Lemma SigRun_body_frame (val : os_Signal) (w : World) :
  res (SigRun_body val w) = Ret tt /\ post (SigRun_body val w) = w.
Proof.
  rewrite SigRun_body_run.
  destruct (Has KILL_SIGS (assert_syscall_Signal val)); auto.
Qed.

(** C7.  One round of the signal-relay task leaves the state alone and
    goes on to the next signal.  For a signal of [KILL_SIGS] it sends the
    signal on the kill channel, after a log line when verbose; for any
    other signal it does nothing but write a log line when verbose.  The
    task as a whole never returns, never ends the program and never changes
    the state, and its trace is that of its rounds. *)
Theorem SigRun_relays_kill_signals_only (val : os_Signal) (w : World) :
  SigRun_body val w =
    (if Has KILL_SIGS (assert_syscall_Signal val)
     then mkOut (Ret tt) w
            ((if Verb (Main_Opt (self w))
              then [EvLog (LogKillSignal (assert_syscall_Signal val))]
              else []) ++ [EvSendKill (assert_syscall_Signal val)])
     else mkOut (Ret tt) w
            (if Verb (Main_Opt (self w))
             then [EvLog (LogUnknownSignal (assert_syscall_Signal val))]
             else [])) /\
  (Has KILL_SIGS (assert_syscall_Signal val) = true <->
   In (assert_syscall_Signal val) KILL_SIGS) /\
  (forall delivered : list os_Signal,
     res (SigRun delivered w) = Block /\
     post (SigRun delivered w) = w /\
     trace (SigRun delivered w) =
       flat_map (fun v => trace (SigRun_body v w)) delivered).
Proof.
  split; [apply SigRun_body_run|].
  split; [apply Has_In|].
  induction delivered as [|v delivered (IHr & IHp & IHt)].
  - repeat split.
  - destruct (SigRun_body_frame v w) as (Hr & Hp).
    cbn [SigRun flat_map]. unfold bind.
    rewrite Hr, Hp, IHr, IHp, IHt. repeat split.
Qed.

(** C8.  [SigInit] registers [KILL_SIGS_OS] with [signal.Notify], and a
    signal is in that registration exactly when the signal-relay task
    classifies it as a kill signal, that is, when a round of [SigRun] on
    it sends it on the kill channel. *)
Theorem SigInit_registers_the_kill_signals (val : os_Signal) (w : World) :
  trace (SigInit w) = [EvSignalNotify KILL_SIGS_OS] /\
  relayed (post (SigInit w)) = relayed w ++ KILL_SIGS_OS /\
  (In val KILL_SIGS_OS <->
   Has KILL_SIGS (assert_syscall_Signal val) = true) /\
  (In val KILL_SIGS_OS <->
   In (EvSendKill (assert_syscall_Signal val))
      (trace (SigRun_body val w))).
Proof.
  assert (Hclass : In val KILL_SIGS_OS <->
                   Has KILL_SIGS (assert_syscall_Signal val) = true).
  { rewrite Has_In. destruct val as [sig]. simpl. split.
    - intros [H|[H|[H|[H|[]]]]]; injection H as <-; auto.
    - intros [H|[H|[H|[H|[]]]]]; rewrite <- H; auto. }
  repeat split; try reflexivity; try apply Hclass.
  - intros Hin. apply Hclass in Hin.
    rewrite SigRun_body_run, Hin. simpl.
    apply in_or_app. right. left. reflexivity.
  - rewrite SigRun_body_run.
    destruct (Has KILL_SIGS (assert_syscall_Signal val)) eqn:Hk.
    + intros _. apply Hclass. reflexivity.
    + simpl. destruct (Verb (Main_Opt (self w))); simpl.
      * intros [H|[]]. discriminate H.
      * intros [].
Qed.

(** ** Initialisation *)

Lemma Init_res (env : Env) (w : World) :
  res (Init env w) =
    match first_fault env with
    | Some e => Panic e
    | None => Ret tt
    end.
Proof.
  unfold first_fault, Init, Opt_Init, Cmd_Init, WatchInit, TermState_Init,
    Stdio_Init, attempt.
  destruct (fault env StepOpt); [reflexivity|].
  destruct (fault env StepCmd); [reflexivity|].
  destruct (fault env StepWatch); [reflexivity|].
  destruct (fault env StepTermState); [reflexivity|].
  destruct (fault env StepStdio); reflexivity.
Qed.

Lemma Init_ok (env : Env) (w : World) :
  first_fault env = None ->
  post (Init env w) =
    mkWorld
      (mkMain (parsed env) (mkCmd true (Cmd_proc (Main_Cmd (self w))))
         true (Some tt) true (Some tt) (clock w))
      (clock w) (relayed w ++ KILL_SIGS_OS) /\
  trace (Init env w) =
    [EvInit StepOpt; EvInit StepCmd; EvSignalNotify KILL_SIGS_OS;
     EvInit StepWatch; EvInit StepTermState; EvInit StepStdio;
     EvSetLastRestart (clock w)].
Proof.
  unfold first_fault, Init, Opt_Init, Cmd_Init, WatchInit, TermState_Init,
    Stdio_Init, attempt.
  destruct (fault env StepOpt); [discriminate|].
  destruct (fault env StepCmd); [discriminate|].
  destruct (fault env StepWatch); [discriminate|].
  destruct (fault env StepTermState); [discriminate|].
  destruct (fault env StepStdio); [discriminate|].
  intros _. split; reflexivity.
Qed.

Lemma CmdRun_loop_res (inbox : list (Time * Msg)) (w : World) :
  res (CmdRun_loop inbox w) =
    if forallb is_MsgRestart inbox then Block else Ret tt.
Proof.
  revert w. induction inbox as [|[t m] inbox IH]; intros w.
  - reflexivity.
  - destruct m as [|sig].
    + destruct (CmdRun_loop_restart_step t inbox w) as (-> & _).
      apply IH.
    + destruct (CmdRun_loop_kill_step t sig inbox w) as (-> & _).
      reflexivity.
Qed.

Lemma Run_run (inbox : list (Time * Msg)) (w : World) :
  res (Run inbox w) =
    (if forallb is_MsgRestart inbox then Block else Ret tt) /\
  post (Run inbox w) = post (CmdRun inbox w) /\
  trace (Run inbox w) =
    [EvGo TaskStdio; EvGo TaskSig; EvGo TaskWatch] ++
    trace (CmdRun inbox w).
Proof.
  destruct (CmdRun_prelude inbox w) as (R & _).
  rewrite <- (CmdRun_loop_res inbox (bootstrapped w)), <- R.
  unfold Run.
  destruct (bind_emit (EvGo TaskWatch) (CmdRun inbox) w) as (R3 & P3 & T3).
  destruct (bind_emit (EvGo TaskSig)
              (emit (EvGo TaskWatch) ;; CmdRun inbox) w) as (R2 & P2 & T2).
  destruct (bind_emit (EvGo TaskStdio)
              (emit (EvGo TaskSig) ;; emit (EvGo TaskWatch) ;; CmdRun inbox)
              w) as (R1 & P1 & T1).
  rewrite R1, R2, R3, P1, P2, P3, T1, T2, T3. auto.
Qed.

Lemma body_res (env : Env) (inbox : list (Time * Msg)) (w : World) :
  res ((Init env ;; Run inbox) w) =
    match first_fault env with
    | Some e => Panic e
    | None => if forallb is_MsgRestart inbox then Block else Ret tt
    end.
Proof.
  pose proof (Init_res env w) as I.
  unfold bind at 1.
  destruct (first_fault env); rewrite I; cbn [res].
  - reflexivity.
  - apply Run_run.
Qed.

(** ** Exit *)

(** C9.  [Exit] ends the process with status 1, after logging the error,
    when a panic is in flight, and with status 0 otherwise.  In [main],
    when a setup step fails the program runs [Deinit], logs the error and
    exits with status 1; when the loop returns the program runs [Deinit]
    and exits with status 0; in both cases every operation of [Deinit]
    comes before the exit and the resources are released in the final
    state.  While the loop is blocked the program has not exited. *)
Theorem main_exit_status (env : Env) (inbox : list (Time * Msg))
  (w : World) :
  (forall (e : Err) (w' : World),
     Exit (Some e) w' = mkOut (Halt 1) w' [EvLog (LogError e); EvExit 1]) /\
  (forall w' : World, Exit None w' = mkOut (Halt 0) w' [EvExit 0]) /\
  match first_fault env with
  | Some e =>
      res ((Init env ;; Run inbox) w) = Panic e /\
      res (main env inbox w) = Halt 1 /\
      trace (main env inbox w) =
        trace ((Init env ;; Run inbox) w) ++
        trace (Deinit (post ((Init env ;; Run inbox) w))) ++
        [EvLog (LogError e); EvExit 1] /\
      post (main env inbox w) =
        post (Deinit (post ((Init env ;; Run inbox) w)))
  | None =>
      if forallb is_MsgRestart inbox
      then
        res ((Init env ;; Run inbox) w) = Block /\
        res (main env inbox w) = Block /\
        trace (main env inbox w) = trace ((Init env ;; Run inbox) w)
      else
        res ((Init env ;; Run inbox) w) = Ret tt /\
        res (main env inbox w) = Halt 0 /\
        trace (main env inbox w) =
          trace ((Init env ;; Run inbox) w) ++
          trace (Deinit (post ((Init env ;; Run inbox) w))) ++
          [EvExit 0] /\
        post (main env inbox w) =
          post (Deinit (post ((Init env ;; Run inbox) w)))
  end.
Proof.
  split; [reflexivity|]. split; [reflexivity|].
  pose proof (body_res env inbox w) as B.
  destruct (Deinit_run (post ((Init env ;; Run inbox) w))) as (D & _).
  unfold main, defer.
  destruct (first_fault env) as [e|].
  - rewrite B; cbn [res post trace]. rewrite D; cbn [res post trace].
    unfold Exit, Opt_LogErr, os_Exit, bind, emit; cbn [res post trace].
    rewrite <- app_assoc. auto.
  - destruct (forallb is_MsgRestart inbox).
    + rewrite B; cbn [res post trace]. rewrite B. auto.
    + rewrite B; cbn [res post trace]. rewrite D; cbn [res post trace].
      unfold Exit, os_Exit; cbn [res post trace].
      rewrite <- app_assoc. auto.
Qed.

(** ** The debounce window after startup *)

Lemma ShouldRestart_too_soon (event : FsEvent) (w : World) :
  clock w - lastRestart (self w) < Debounce (Main_Opt (self w)) ->
  ShouldRestart event w = false.
Proof.
  intros Hsoon. destruct event as [path|]; [|reflexivity].
  unfold ShouldRestart, Debounce_Allow.
  apply Z.leb_gt in Hsoon. rewrite Hsoon. apply andb_false_r.
Qed.

(** C10.  A successful [Init] ends by storing the current time in
    [lastRestart], having started no child, and the bootstrap step of the
    loop, whether postponed or not, leaves that value in place.  So a
    change event that arrives less than the debounce duration after
    [Init] is rejected by [ShouldRestart], before and after the bootstrap
    step, whatever the event and the other options are. *)
Theorem Init_opens_debounce_window (env : Env) (w : World)
  (event : FsEvent) (t : Time)
  (Hinit : res (Init env w) = Ret tt)
  (Hsoon : t - clock w < Debounce (parsed env)) :
  lastRestart (self (post (Init env w))) = clock w /\
  (exists tr, trace (Init env w) = tr ++ [EvSetLastRestart (clock w)]) /\
  restarts (trace (Init env w)) = 0%nat /\
  lastRestart (self (post (Run [] (post (Init env w))))) = clock w /\
  ShouldRestart event (set_clock t (post (Init env w))) = false /\
  ShouldRestart event (set_clock t (post (Run [] (post (Init env w))))) =
    false.
Proof.
  rewrite Init_res in Hinit.
  destruct (first_fault env) eqn:Hfault; [discriminate Hinit|].
  destruct (Init_ok env w Hfault) as (Hpost & Htrace).
  destruct (Run_run [] (post (Init env w))) as (_ & Prun & _).
  destruct (CmdRun_prelude [] (post (Init env w))) as (_ & Pcmd & _).
  rewrite Prun, Pcmd, Htrace, Hpost. cbn [CmdRun_loop block post].
  repeat split.
  - eexists [_; _; _; _; _; _]. reflexivity.
  - unfold bootstrapped; simpl. destruct (Postpone (parsed env)); reflexivity.
  - apply ShouldRestart_too_soon. exact Hsoon.
  - apply ShouldRestart_too_soon.
    unfold bootstrapped; simpl.
    destruct (Postpone (parsed env)); exact Hsoon.
Qed.

Lemma Init_opens_debounce_window_witness :
  res (Init sample_Env (boot 1000)) = Ret tt /\
  1050 - clock (boot 1000) < Debounce (parsed sample_Env) /\
  ShouldRestart (Some "main.go"%string)
    (set_clock 1050 (post (Run [] (post (Init sample_Env (boot 1000)))))) =
    false.
Proof.
  split; [reflexivity|]. split; [reflexivity|].
  apply (Init_opens_debounce_window sample_Env (boot 1000)
           (Some "main.go"%string) 1050 eq_refl eq_refl).
Defined.

(** ** Checks on sample runs *)

Example admits_after_debounce :
  ShouldRestart (Some "main.go"%string) (set_clock 1100 sample_World) = true.
Proof. reflexivity. Qed.

Example rejects_within_debounce :
  ShouldRestart (Some "main.go"%string) (set_clock 1099 sample_World) = false.
Proof. reflexivity. Qed.

Example rejects_other_path :
  ShouldRestart (Some "README.md"%string) (set_clock 5000 sample_World)
  = false.
Proof. reflexivity. Qed.

Example rejects_nil_event :
  ShouldRestart None (set_clock 5000 sample_World) = false.
Proof. reflexivity. Qed.

Example run_restart_then_kill :
  trace (main sample_Env
           [(1200, MsgRestart); (1300, MsgKill syscall.SIGTERM);
            (1400, MsgRestart)] (boot 1000)) =
    [EvInit StepOpt; EvInit StepCmd; EvSignalNotify KILL_SIGS_OS;
     EvInit StepWatch; EvInit StepTermState; EvInit StepStdio;
     EvSetLastRestart 1000;
     EvGo TaskStdio; EvGo TaskSig; EvGo TaskWatch;
     EvCmdRestart;
     EvSetLastRestart 1200; EvTermInter; EvCmdRestart;
     EvCmdBroadcast syscall.SIGTERM;
     EvStdioDeinit; EvTermRestore; EvWatchDeinit; EvSignalStop; EvCmdDeinit;
     EvSelfKill syscall.SIGTERM;
     EvSignalStop;
     EvExit 0].
Proof. reflexivity. Qed.

Example run_watch_backend_fails :
  trace (main broken_Env [(1200, MsgRestart)] (boot 1000)) =
    [EvInit StepOpt; EvInit StepCmd; EvSignalNotify KILL_SIGS_OS;
     EvInit StepWatch;
     EvSignalStop; EvCmdDeinit;
     EvLog (LogError "watch"%string); EvExit 1].
Proof. reflexivity. Qed.

Example relay_unknown_signal :
  trace (SigRun [OsSignal syscall.SIGUSR1; OsSignal syscall.SIGINT]
           sample_World) =
    [EvLog (LogUnknownSignal syscall.SIGUSR1);
     EvLog (LogKillSignal syscall.SIGINT); EvSendKill syscall.SIGINT].
Proof. reflexivity. Qed.

Example no_forced_kill :
  ~ In (EvCmdBroadcast syscall.SIGKILL)
       (trace (Terminate syscall.SIGINT sample_World)).
Proof.
  simpl. intros H.
  repeat (destruct H as [H|H]; [discriminate H|]). exact H.
Qed.

Example second_Deinit_keeps_state :
  post (Deinit (post (Deinit sample_World))) = post (Deinit sample_World).
Proof. reflexivity. Qed.

(** * Further properties *)

(** ** The watcher *)

(** [WatchDeinit] clears the field it tests: a second call finds the
    watcher gone, calls nothing and changes nothing, whatever the state
    before the first call. *)
Theorem WatchDeinit_second_call_silent (w : World) :
  WatchDeinit (post (WatchDeinit w)) =
    mkOut (Ret tt) (post (WatchDeinit w)) [] /\
  Main_Watcher (self (post (WatchDeinit w))) = None /\
  trace (WatchDeinit w) =
    (match Main_Watcher (self w) with
     | Some _ => [EvWatchDeinit] | None => [] end).
Proof.
  destruct w as [[o c stdio wat term ch last] clk rel].
  destruct wat; repeat split.
Qed.

(** Once the watcher is gone, [WatchRun] returns at once and never enters
    [Watcher.Run], whatever that method would do: after [WatchDeinit], and
    after an [Init] that failed before the watcher was assigned. *)
Theorem WatchRun_without_watcher (Watcher_Run : M unit) (env : Env)
  (w : World) (t : Time) :
  WatchRun Watcher_Run (post (WatchDeinit w)) =
    mkOut (Ret tt) (post (WatchDeinit w)) [] /\
  (match fault env StepWatch with
   | Some _ =>
       WatchRun Watcher_Run (post (Init env (boot t))) =
         mkOut (Ret tt) (post (Init env (boot t))) []
   | None => True
   end).
Proof.
  split.
  - destruct w as [[o c stdio wat term ch last] clk rel].
    destruct wat; reflexivity.
  - destruct (fault env StepWatch) eqn:Hw; [|exact I].
    unfold Init, Opt_Init, Cmd_Init, WatchInit, TermState_Init, Stdio_Init,
      attempt.
    destruct (fault env StepOpt); [reflexivity|].
    destruct (fault env StepCmd); [reflexivity|].
    rewrite Hw. reflexivity.
Qed.

(** With a watcher in place [WatchRun] is [Watcher.Run]. *)
Lemma WatchRun_with_watcher (Watcher_Run : M unit) (w : World) :
  Main_Watcher (self w) = Some tt ->
  res (WatchRun Watcher_Run w) = res (Watcher_Run w) /\
  post (WatchRun Watcher_Run w) = post (Watcher_Run w) /\
  trace (WatchRun Watcher_Run w) = trace (Watcher_Run w).
Proof.
  intros Hw. unfold WatchRun, bind, gets; simpl. rewrite Hw; simpl.
  destruct (res (Watcher_Run w)); auto.
Qed.

(** ** The signal relay *)

Lemma kill_sends_app (a b : list Event) :
  kill_sends (a ++ b) = kill_sends a ++ kill_sends b.
Proof.
  induction a as [|e a IH]; [reflexivity|].
  destruct e; simpl; rewrite IH; reflexivity.
Qed.

(** The signal-relay task sends on the kill channel exactly the delivered
    signals that are kill signals, once each and in the order of their
    delivery, whether verbose or not. *)
Theorem SigRun_preserves_order (delivered : list os_Signal) (w : World) :
  kill_sends (trace (SigRun delivered w)) =
    filter (Has KILL_SIGS) (map assert_syscall_Signal delivered).
Proof.
  induction delivered as [|v delivered IH]; [reflexivity|].
  destruct (SigRun_body_frame v w) as (Hr & Hp).
  cbn [SigRun map filter]. unfold bind.
  rewrite Hr; cbn [trace]. rewrite Hp, kill_sends_app, IH.
  rewrite SigRun_body_run.
  destruct (Has KILL_SIGS (assert_syscall_Signal v)),
    (Verb (Main_Opt (self w))); reflexivity.
Qed.

(** [SigDeinit] undoes [SigInit]: nothing is relayed afterwards, whatever
    was relayed before, and the channel stays in place.  On a nil channel,
    as after an [Init] that failed before [SigInit], [SigDeinit] calls
    nothing and changes nothing. *)
Theorem SigDeinit_undoes_SigInit (w : World) :
  relayed (post (SigDeinit (post (SigInit w)))) = [] /\
  Main_ChanSignals (self (post (SigDeinit (post (SigInit w))))) = Some tt /\
  trace (SigDeinit (post (SigInit w))) = [EvSignalStop] /\
  (match Main_ChanSignals (self w) with
   | None => SigDeinit w = mkOut (Ret tt) w []
   | Some _ => trace (SigDeinit w) = [EvSignalStop]
   end).
Proof.
  destruct w as [[o c stdio wat term ch last] clk rel].
  destruct ch; repeat split.
Qed.

(** ** Whole runs *)

Lemma bind_Ret {A B : Type} (m : M A) (f : A -> M B) (w : World) (a : A) :
  res (m w) = Ret a ->
  res (bind m f w) = res (f a (post (m w))) /\
  post (bind m f w) = post (f a (post (m w))) /\
  trace (bind m f w) = trace (m w) ++ trace (f a (post (m w))).
Proof. intros H. unfold bind. rewrite H. auto. Qed.

Lemma bind_Panic {A B : Type} (m : M A) (f : A -> M B) (w : World)
  (e : Err) :
  res (m w) = Panic e ->
  res (bind m f w) = Panic e /\
  post (bind m f w) = post (m w) /\
  trace (bind m f w) = trace (m w).
Proof. intros H. unfold bind. rewrite H. auto. Qed.

(** The body of [main], by the outcome of [Init]. *)
Lemma body_run (env : Env) (inbox : list (Time * Msg)) (w : World) :
  match first_fault env with
  | Some e =>
      post ((Init env ;; Run inbox) w) = post (Init env w) /\
      trace ((Init env ;; Run inbox) w) = trace (Init env w)
  | None =>
      post ((Init env ;; Run inbox) w) =
        post (Run inbox (post (Init env w))) /\
      trace ((Init env ;; Run inbox) w) =
        trace (Init env w) ++ trace (Run inbox (post (Init env w)))
  end.
Proof.
  pose proof (Init_res env w) as I.
  destruct (first_fault env) as [e|].
  - destruct (bind_Panic (Init env) (fun _ => Run inbox) w e I)
      as (_ & P & T). auto.
  - destruct (bind_Ret (Init env) (fun _ => Run inbox) w tt I)
      as (_ & P & T). auto.
Qed.

(** The trace and the final state of [main], by the outcome of its body. *)
Lemma main_run (env : Env) (inbox : list (Time * Msg)) (w : World) :
  trace (main env inbox w) =
    trace ((Init env ;; Run inbox) w) ++
    match first_fault env with
    | Some e =>
        trace (Deinit (post ((Init env ;; Run inbox) w))) ++
        [EvLog (LogError e); EvExit 1]
    | None =>
        if forallb is_MsgRestart inbox then []
        else trace (Deinit (post ((Init env ;; Run inbox) w))) ++ [EvExit 0]
    end /\
  post (main env inbox w) =
    match first_fault env with
    | Some _ => post (Deinit (post ((Init env ;; Run inbox) w)))
    | None =>
        if forallb is_MsgRestart inbox
        then post ((Init env ;; Run inbox) w)
        else post (Deinit (post ((Init env ;; Run inbox) w)))
    end.
Proof.
  pose proof (body_res env inbox w) as B.
  destruct (Deinit_run (post ((Init env ;; Run inbox) w))) as (D & _).
  unfold main, defer.
  destruct (first_fault env) as [e|].
  - rewrite B; cbn [res post trace]. rewrite D; cbn [res post trace].
    unfold Exit, Opt_LogErr, os_Exit, bind, emit; cbn [res post trace].
    rewrite <- app_assoc. auto.
  - destruct (forallb is_MsgRestart inbox).
    + rewrite B; cbn [res post trace]. rewrite B.
      rewrite app_nil_r. auto.
    + rewrite B; cbn [res post trace]. rewrite D; cbn [res post trace].
      unfold Exit, os_Exit; cbn [res post trace].
      rewrite <- app_assoc. auto.
Qed.

Lemma Init_no_restart (env : Env) (w : World) :
  restarts (trace (Init env w)) = 0%nat.
Proof.
  unfold Init, Opt_Init, Cmd_Init, WatchInit, TermState_Init, Stdio_Init,
    attempt.
  destruct (fault env StepOpt); [reflexivity|].
  destruct (fault env StepCmd); [reflexivity|].
  destruct (fault env StepWatch); [reflexivity|].
  destruct (fault env StepTermState); [reflexivity|].
  destruct (fault env StepStdio); reflexivity.
Qed.

(** Over a whole run of the program the child is started: never, when a
    setup step fails; otherwise once for the bootstrap unless postponed,
    plus once per restart request that the loop receives ahead of the
    first kill request.  Teardown and exit start no child. *)
Theorem main_restart_count (env : Env) (inbox : list (Time * Msg))
  (w : World) :
  restarts (trace (main env inbox w)) =
    match first_fault env with
    | Some _ => 0%nat
    | None =>
        ((if Postpone (parsed env) then 0 else 1) + restarts_due inbox)%nat
    end.
Proof.
  destruct (main_run env inbox w) as (T & _).
  pose proof (body_run env inbox w) as B.
  rewrite T. clear T.
  destruct (first_fault env) as [e|] eqn:Hf.
  - destruct B as (_ & ->).
    rewrite !restarts_app, Init_no_restart, Deinit_no_restart. reflexivity.
  - destruct B as (_ & ->).
    destruct (Init_ok env w Hf) as (Hpost & _).
    destruct (Run_run inbox (post (Init env w))) as (_ & _ & ->).
    destruct (CmdRun_prelude inbox (post (Init env w))) as (_ & _ & ->).
    rewrite !restarts_app, Init_no_restart, CmdRun_loop_restarts.
    assert (Htail : forall l, restarts
              (if forallb is_MsgRestart inbox then []
               else trace (Deinit l) ++ [EvExit 0]) = 0%nat).
    { intros l. destruct (forallb is_MsgRestart inbox); [reflexivity|].
      rewrite restarts_app, Deinit_no_restart. reflexivity. }
    rewrite Htail, Hpost. cbn [self Main_Opt].
    destruct (Postpone (parsed env)); simpl; lia.
Qed.

Lemma released_times_app (r : Resource) (a b : list Event) :
  released_times r (a ++ b) =
    (released_times r a + released_times r b)%nat.
Proof. unfold released_times. now rewrite filter_app, length_app. Qed.

Lemma Deinit_releases (r : Resource) (w : World) :
  released_times r (trace (Deinit w)) = Nat.b2n (held r w) /\
  held r (post (Deinit w)) = false.
Proof.
  destruct w as [[o [h proc] stdio wat term ch last] clk rel].
  destruct stdio, term, wat, ch, h, r; split; reflexivity.
Qed.

Lemma Init_releases_nothing (r : Resource) (env : Env) (w : World) :
  released_times r (trace (Init env w)) = 0%nat.
Proof.
  unfold Init, Opt_Init, Cmd_Init, WatchInit, TermState_Init, Stdio_Init,
    attempt.
  destruct (fault env StepOpt); [destruct r; reflexivity|].
  destruct (fault env StepCmd); [destruct r; reflexivity|].
  destruct (fault env StepWatch); [destruct r; reflexivity|].
  destruct (fault env StepTermState); [destruct r; reflexivity|].
  destruct (fault env StepStdio); destruct r; reflexivity.
Qed.

(** Along the loop a resource is either still held or has been released
    once. *)
Lemma CmdRun_loop_releases (r : Resource) (inbox : list (Time * Msg))
  (w : World) :
  (released_times r (trace (CmdRun_loop inbox w)) +
   Nat.b2n (held r (post (CmdRun_loop inbox w))))%nat =
  Nat.b2n (held r w) /\
  (forallb is_MsgRestart inbox = true ->
   released_times r (trace (CmdRun_loop inbox w)) = 0%nat).
Proof.
  revert w. induction inbox as [|[t m] inbox IH]; intros w.
  - split; [reflexivity | intros _; reflexivity].
  - destruct m as [|sig].
    + destruct (CmdRun_loop_restart_step t inbox w) as (_ & -> & ->).
      destruct (IH (restarted t w)) as (IH1 & IH2).
      rewrite released_times_app.
      replace (released_times r [EvSetLastRestart t; EvTermInter;
                                 EvCmdRestart]) with 0%nat
        by (destruct r; reflexivity).
      replace (held r w) with (held r (restarted t w))
        by (destruct r; reflexivity).
      split; [exact IH1 | exact IH2].
    + destruct (CmdRun_loop_kill_step t sig inbox w) as (_ & -> & ->).
      destruct (Terminate_run sig (set_clock t w)) as (_ & -> & ->).
      destruct (Deinit_releases r (set_clock t w)) as (Hn & ->).
      split; [|discriminate].
      rewrite !released_times_app, Hn.
      replace (held r (set_clock t w)) with (held r w)
        by (destruct r; reflexivity).
      replace (released_times r [EvCmdBroadcast sig]) with 0%nat
        by (destruct r; reflexivity).
      replace (released_times r [EvSelfKill sig]) with 0%nat
        by (destruct r; reflexivity).
      simpl. lia.
Qed.

Lemma Run_releases (r : Resource) (inbox : list (Time * Msg)) (w : World) :
  (released_times r (trace (Run inbox w)) +
   Nat.b2n (held r (post (Run inbox w))))%nat =
  Nat.b2n (held r w) /\
  (forallb is_MsgRestart inbox = true ->
   released_times r (trace (Run inbox w)) = 0%nat).
Proof.
  destruct (Run_run inbox w) as (_ & -> & ->).
  destruct (CmdRun_prelude inbox w) as (_ & -> & ->).
  destruct (CmdRun_loop_releases r inbox (bootstrapped w)) as (H1 & H2).
  rewrite !released_times_app.
  replace (released_times r [EvGo TaskStdio; EvGo TaskSig; EvGo TaskWatch])
    with 0%nat by (destruct r; reflexivity).
  replace (released_times r
             (if Postpone (Main_Opt (self w)) then [] else [EvCmdRestart]))
    with 0%nat
    by (destruct r, (Postpone (Main_Opt (self w))); reflexivity).
  replace (held r w) with (held r (bootstrapped w))
    by (unfold bootstrapped;
        destruct r, (Postpone (Main_Opt (self w))); reflexivity).
  split; [exact H1 | exact H2].
Qed.

(** In a whole run no resource is released twice, although [Deinit] runs
    twice when the loop ends on a kill request (once in [Terminate], once
    deferred in [main]).  A run that exits releases each resource exactly
    as often as [Init] left it held: once each after a successful [Init],
    and after a failed one only what had been acquired.  A run still
    blocked in the loop has released nothing. *)
Theorem main_releases_once (r : Resource) (env : Env)
  (inbox : list (Time * Msg)) (w : World) :
  (released_times r (trace (main env inbox w)) <= 1)%nat /\
  released_times r (trace (main env inbox w)) =
    match first_fault env with
    | Some _ => Nat.b2n (held r (post (Init env w)))
    | None => if forallb is_MsgRestart inbox then 0%nat else 1%nat
    end.
Proof.
  assert (Hb : forall b : bool, (Nat.b2n b <= 1)%nat)
    by (intros []; simpl; lia).
  destruct (main_run env inbox w) as (T & _).
  pose proof (body_run env inbox w) as B.
  rewrite T. clear T.
  destruct (first_fault env) as [e|] eqn:Hf.
  - destruct B as (-> & ->).
    rewrite !released_times_app, Init_releases_nothing.
    destruct (Deinit_releases r (post (Init env w))) as (-> & _).
    replace (released_times r [EvLog (LogError e); EvExit 1]) with 0%nat
      by (destruct r; reflexivity).
    split; [specialize (Hb (held r (post (Init env w)))); lia | lia].
  - destruct B as (-> & ->).
    destruct (Init_ok env w Hf) as (Hpost & _).
    destruct (Run_releases r inbox (post (Init env w))) as (H1 & H2).
    assert (Hheld : held r (post (Init env w)) = true)
      by (rewrite Hpost; destruct r; reflexivity).
    rewrite Hheld in H1. cbn [Nat.b2n] in H1.
    rewrite !released_times_app, Init_releases_nothing.
    destruct (forallb is_MsgRestart inbox).
    + rewrite (H2 eq_refl).
      change (released_times r []) with 0%nat. split; lia.
    + rewrite released_times_app.
      destruct (Deinit_releases r (post (Run inbox (post (Init env w)))))
        as (-> & _).
      replace (released_times r [EvExit 0]) with 0%nat
        by (destruct r; reflexivity).
      split; lia.
Qed.

Lemma Deinit_all_released (w : World) :
  relay_has_channel w -> all_released (post (Deinit w)).
Proof.
  intros Hinv. destruct (Deinit_run w) as (_ & _ & Hp).
  split.
  - intros r. apply Deinit_releases.
  - rewrite Hp; simpl. unfold relay_has_channel in Hinv.
    destruct (Main_ChanSignals (self w)); auto.
Qed.

Lemma CmdRun_loop_relay (inbox : list (Time * Msg)) (w : World) :
  relay_has_channel w -> relay_has_channel (post (CmdRun_loop inbox w)).
Proof.
  revert w. induction inbox as [|[t m] inbox IH]; intros w Hinv.
  - exact Hinv.
  - destruct m as [|sig].
    + destruct (CmdRun_loop_restart_step t inbox w) as (_ & -> & _).
      apply IH. exact Hinv.
    + destruct (CmdRun_loop_kill_step t sig inbox w) as (_ & -> & _).
      destruct (Terminate_run sig (set_clock t w)) as (_ & _ & ->).
      destruct (Deinit_all_released (set_clock t w) Hinv) as (_ & Hr).
      intros _. exact Hr.
Qed.

Lemma Init_relay (env : Env) (t : Time) :
  relay_has_channel (post (Init env (boot t))).
Proof.
  unfold relay_has_channel, Init, Opt_Init, Cmd_Init, WatchInit,
    TermState_Init, Stdio_Init, attempt.
  destruct (fault env StepOpt); [reflexivity|].
  destruct (fault env StepCmd); [reflexivity|].
  destruct (fault env StepWatch); [discriminate|].
  destruct (fault env StepTermState); [discriminate|].
  destruct (fault env StepStdio); discriminate.
Qed.

(** Every run of the program that exits, with a setup failure or after a
    kill request, leaves nothing behind: no resource is held and no signal
    is relayed to the program any longer.  The only run that does not exit
    is the one still blocked in the loop. *)
Theorem main_exits_clean (env : Env) (inbox : list (Time * Msg))
  (t : Time) :
  match first_fault env with
  | Some _ => all_released (post (main env inbox (boot t)))
  | None =>
      if forallb is_MsgRestart inbox
      then res (main env inbox (boot t)) = Block
      else all_released (post (main env inbox (boot t)))
  end.
Proof.
  destruct (main_run env inbox (boot t)) as (_ & P).
  pose proof (body_run env inbox (boot t)) as B.
  pose proof (body_res env inbox (boot t)) as R.
  pose proof (Init_relay env t) as Hinv.
  destruct (first_fault env) as [e|].
  - rewrite P. destruct B as (-> & _).
    apply Deinit_all_released. exact Hinv.
  - destruct (forallb is_MsgRestart inbox).
    + unfold main, defer. rewrite R; cbn [res post trace].
      rewrite R; cbn [res post trace]. exact R.
    + rewrite P. destruct B as (-> & _).
      apply Deinit_all_released.
      destruct (Run_run inbox (post (Init env (boot t)))) as (_ & -> & _).
      destruct (CmdRun_prelude inbox (post (Init env (boot t))))
        as (_ & -> & _).
      apply CmdRun_loop_relay.
      unfold relay_has_channel, bootstrapped in *.
      destruct (Postpone (Main_Opt (self (post (Init env (boot t))))));
        exact Hinv.
Qed.

(** ** The debounce baseline along the loop *)

Lemma CmdRun_loop_baseline (inbox : list (Time * Msg)) (w : World) :
  Main_Opt (self (post (CmdRun_loop inbox w))) = Main_Opt (self w) /\
  lastRestart (self (post (CmdRun_loop inbox w))) =
    baseline inbox (lastRestart (self w)).
Proof.
  revert w. induction inbox as [|[t m] inbox IH]; intros w.
  - split; reflexivity.
  - destruct m as [|sig].
    + destruct (CmdRun_loop_restart_step t inbox w) as (_ & -> & _).
      destruct (IH (restarted t w)) as (-> & ->). split; reflexivity.
    + destruct (CmdRun_loop_kill_step t sig inbox w) as (_ & -> & _).
      destruct (Terminate_run sig (set_clock t w)) as (_ & _ & ->).
      destruct (Deinit_run (set_clock t w)) as (_ & _ & ->).
      split; reflexivity.
Qed.

(** The debounce window always starts at the last restart request the loop
    has received: [CmdRun] leaves in [lastRestart] the time of that
    request, or the value it found when there was none (the bootstrap
    restart does not move it), and leaves the options alone.  A change
    event that comes sooner than the debounce duration after that time is
    rejected. *)
Theorem CmdRun_moves_baseline (inbox : list (Time * Msg)) (w : World)
  (event : FsEvent) (t : Time)
  (Hsoon : t - baseline inbox (lastRestart (self w)) <
           Debounce (Main_Opt (self w))) :
  lastRestart (self (post (CmdRun inbox w))) =
    baseline inbox (lastRestart (self w)) /\
  Main_Opt (self (post (CmdRun inbox w))) = Main_Opt (self w) /\
  ShouldRestart event (set_clock t (post (CmdRun inbox w))) = false.
Proof.
  destruct (CmdRun_prelude inbox w) as (_ & P & _).
  destruct (CmdRun_loop_baseline inbox (bootstrapped w)) as (Ho & Hl).
  assert (Hb : Main_Opt (self (bootstrapped w)) = Main_Opt (self w) /\
               lastRestart (self (bootstrapped w)) = lastRestart (self w)).
  { unfold bootstrapped.
    destruct (Postpone (Main_Opt (self w))); split; reflexivity. }
  destruct Hb as (Hbo & Hbl).
  rewrite Hbo in Ho. rewrite Hbl in Hl. rewrite P.
  repeat split; try assumption.
  apply ShouldRestart_too_soon. cbn [set_clock self clock].
  rewrite Ho, Hl. exact Hsoon.
Qed.

Lemma CmdRun_moves_baseline_witness :
  1599 - baseline [(1200, MsgRestart); (1500, MsgRestart)]
           (lastRestart (self sample_World)) <
    Debounce (Main_Opt (self sample_World)) /\
  lastRestart
    (self (post (CmdRun [(1200, MsgRestart); (1500, MsgRestart)]
                   sample_World))) = 1500 /\
  ShouldRestart (Some "main.go"%string)
    (set_clock 1599
       (post (CmdRun [(1200, MsgRestart); (1500, MsgRestart)]
                sample_World))) = false.
Proof.
  split; [reflexivity|].
  pose proof (CmdRun_moves_baseline
                [(1200, MsgRestart); (1500, MsgRestart)] sample_World
                (Some "main.go"%string) 1599 eq_refl) as H.
  split; [exact (proj1 H) | exact (proj2 (proj2 H))].
Defined.
